(** * A tracked QR-code link service: issuance, persistence, resolution

    Shallow embedding of [main.py]: the two request handlers that touch
    the SQLite database ([receive_webhook], [follow_qr]), the schema that
    [init_db] creates, and the library calls they make.

    Conventions.
    - A Python [str] is modelled by the bytes of its UTF-8 encoding
      ([String.string], one [ascii] per byte); this is the form in which
      [urllib.parse.quote_plus] processes it and in which SQLite compares
      [TEXT] keys.
    - Table [qr_codes] has [slug] as primary key: a finite map keyed by
      slug.  Table [qr_scans] is the list of its rows in insertion order,
      together with the AUTOINCREMENT high-water mark SQLite keeps in
      [sqlite_sequence].
    - The directory [QR_DIR] is a finite map from path to file content.
    - [secrets.token_urlsafe] reads an entropy source that is part of the
      world; the wall clock is an input of each call.
    - I/O failures and storage exhaustion (SQLITE_FULL, which is also how
      SQLite reports a spent 64-bit rowid space) are outside the model;
      row ids are unbounded integers. *)

From Stdlib Require Import ZArith NArith Ascii String List Sorted Lia.
From stdpp Require Import gmap strings list fin_maps sorting.

Open Scope string_scope.
Open Scope list_scope.
Open Scope Z_scope.

(** ** urllib.parse: [quote_plus] and [urlencode] *)

Module Urllib.

(** [_ALWAYS_SAFE]: ASCII letters, digits and [_.-~]. *)
Definition always_safe (c : ascii) : bool :=
  let n := N_of_ascii c in
  (((65 <=? n) && (n <=? 90)) || ((97 <=? n) && (n <=? 122))
   || ((48 <=? n) && (n <=? 57))
   || (n =? 95) || (n =? 46) || (n =? 45) || (n =? 126))%N.

(** One digit of the ['%{:02X}'] format. *)
Definition hex_digit (n : N) : ascii :=
  ascii_of_N (if (n <? 10)%N then 48 + n else 55 + n)%N.

(** The quoter applied to each byte by [quote_plus]: a space becomes
    [+], an always-safe byte is kept, any other byte becomes [%XX]. *)
Definition quote_byte (c : ascii) : string :=
  if Ascii.eqb c " " then "+"
  else if always_safe c then String c EmptyString
  else String "%" (String (hex_digit (N_of_ascii c / 16))
                     (String (hex_digit (N_of_ascii c mod 16)) EmptyString)).

Fixpoint quote_plus (s : string) : string :=
  match s with
  | EmptyString => EmptyString
  | String c rest => quote_byte c +:+ quote_plus rest
  end.

(** [urlencode(query)] for a [Dict[str, str]]: the items in the
    dictionary's iteration order, each as [quote_plus(k) + '=' +
    quote_plus(v)], joined by [&]. *)
Definition urlencode (query : list (string * string)) : string :=
  String.concat "&"
    (map (fun kv => quote_plus (fst kv) +:+ "=" +:+ quote_plus (snd kv)) query).

End Urllib.

(** ** Values exchanged with the framework *)

Module WebhookPayload.
(** [params: Dict[str, str]] in iteration order (keys are pairwise
    distinct), [base_url: str] with its default already applied. *)
Record t := { params : list (string * string); base_url : string }.
End WebhookPayload.

Module Request.
(** [request.base_url] as a string and [request.client], an optional
    [(host, port)] address. *)
Record t := { base_url : string; client : option (string * Z) }.
End Request.

Inductive Response :=
| JSONResponse (content : list (string * string))
| RedirectResponse (url : string).

Inductive Exception :=
| HTTPException (status_code : Z) (detail : string)
| IntegrityError (message : string).

Module Qrcode.
(** [qrcode.make(data)]: the image is determined by the text it
    encodes and a scanner reads that text back. *)
Inductive image := make (data : string).
Definition scan (img : image) : string := let (data) := img in data.
End Qrcode.

(** ** The schema created by [init_db] *)

Module QrCodes.
(** A row of [qr_codes], without its primary key [slug]. *)
Record row := { url : string; file_path : string; created_at : string }.
End QrCodes.

Module QrScans.
(** A row of [qr_scans]; [id INTEGER PRIMARY KEY AUTOINCREMENT].  The
    table declares no foreign key. *)
Record row := { id : Z; slug : string; ip : string; scanned_at : string }.
End QrScans.

Record Database := {
  qr_codes : gmap string QrCodes.row;
  qr_scans : list QrScans.row;
  (** the [sqlite_sequence] entry of [qr_scans] *)
  qr_scans_seq : Z
}.

(** What [init_db] leaves in a new database file: both tables empty. *)
Definition init_db : Database :=
  {| qr_codes := ∅; qr_scans := []; qr_scans_seq := 0 |}.

Record World := {
  QR_DIR : string;
  db : Database;
  (** the files under [QR_DIR], by path *)
  files : gmap string Qrcode.image;
  (** [entropy n] is what the [n]-th call of [secrets.token_urlsafe(8)]
      returns; [drawn] counts the calls made so far *)
  entropy : nat → string;
  drawn : nat
}.

(** ** State and exceptions *)

Inductive Result (A : Type) :=
| Ok (a : A)
| Raise (e : Exception).
Arguments Ok {A} a.
Arguments Raise {A} e.

Definition M (S A : Type) : Type := S → S * Result A.

Definition ret {S A} (a : A) : M S A := fun s => (s, Ok a).
Definition raise {S A} (e : Exception) : M S A := fun s => (s, Raise e).
Definition bind {S A B} (c : M S A) (k : A → M S B) : M S B :=
  fun s => match c s with
           | (s', Ok a) => k a s'
           | (s', Raise e) => (s', Raise e)
           end.

Notation "x <- c ;; k" := (bind c (fun x => k))
  (at level 100, c at next level, right associativity).
Notation "c ;;; k" := (bind c (fun _ => k))
  (at level 100, right associativity).

(** ** sqlite3 *)

(** An open connection: the committed database and the connection's view
    of it, which includes its own uncommitted changes. *)
Record Connection := { committed : Database; view : Database }.

Definition Sql := M Connection.
Definition Handler := M World.

(** [with sqlite3.connect(DB_PATH) as conn: body].  Leaving the block
    commits the open transaction; leaving it by an exception rolls the
    transaction back and lets the exception through. *)
Definition with_connection {A} (body : Sql A) : Handler A :=
  fun w =>
    let put d := {| QR_DIR := QR_DIR w; db := d; files := files w;
                    entropy := entropy w; drawn := drawn w |} in
    match body {| committed := db w; view := db w |} with
    | (c, Ok a) => (put (view c), Ok a)
    | (c, Raise e) => (put (committed c), Raise e)
    end.

(** [conn.commit()] *)
Definition commit : Sql unit :=
  fun c => ({| committed := view c; view := view c |}, Ok tt).

(** [SELECT url FROM qr_codes WHERE slug=?] followed by [fetchone()]:
    the one-column row, or [None]. *)
Definition select_url (slug : string) : Sql (option string) :=
  fun c => (c, Ok (QrCodes.url <$> qr_codes (view c) !! slug)).

(** [INSERT INTO qr_codes(slug, url, file_path, created_at)]: the primary
    key makes a second row with the same slug a constraint violation. *)
Definition insert_qr_codes (slug url file_path created_at : string) : Sql unit :=
  fun c =>
    match qr_codes (view c) !! slug with
    | Some _ => (c, Raise (IntegrityError "UNIQUE constraint failed: qr_codes.slug"))
    | None =>
        ({| committed := committed c;
            view := {| qr_codes := <[slug := {| QrCodes.url := url;
                                                QrCodes.file_path := file_path;
                                                QrCodes.created_at := created_at |}]>
                                     (qr_codes (view c));
                       qr_scans := qr_scans (view c);
                       qr_scans_seq := qr_scans_seq (view c) |} |}, Ok tt)
    end.

(** The largest [id] present in [qr_scans] (0 for the empty table). *)
Definition max_rowid (rows : list QrScans.row) : Z :=
  foldr Z.max 0 (QrScans.id <$> rows).

(** AUTOINCREMENT: one more than the largest id that ever existed. *)
Definition next_rowid (d : Database) : Z :=
  Z.max (max_rowid (qr_scans d)) (qr_scans_seq d) + 1.

(** [INSERT INTO qr_scans(slug, ip, scanned_at)]: no constraint of the
    table can reject the row (all three values are strings, the id is
    assigned), and in particular [slug] is not looked up in [qr_codes]. *)
Definition insert_qr_scans (slug ip scanned_at : string) : Sql unit :=
  fun c =>
    let i := next_rowid (view c) in
    ({| committed := committed c;
        view := {| qr_codes := qr_codes (view c);
                   qr_scans := qr_scans (view c) ++
                               [{| QrScans.id := i; QrScans.slug := slug;
                                   QrScans.ip := ip;
                                   QrScans.scanned_at := scanned_at |}];
                   qr_scans_seq := i |} |}, Ok tt).

(** ** secrets, pathlib, PIL *)

(** [secrets.token_urlsafe(nbytes)] *)
Definition token_urlsafe (nbytes : nat) : Handler string :=
  fun w => ({| QR_DIR := QR_DIR w; db := db w; files := files w;
               entropy := entropy w; drawn := S (drawn w) |},
            Ok (entropy w (drawn w))).

(** [str(dir / name)] for a directory path in pathlib's normal form and
    a relative one-component [name]. *)
Definition path_join (dir name : string) : string :=
  if String.eqb dir "." then name
  else if String.eqb (substring (String.length dir - 1)%nat 1%nat dir) "/" then dir +:+ name
  else dir +:+ "/" +:+ name.

(** [QR_DIR / filename] *)
Definition qr_path (filename : string) : Handler string :=
  fun w => (w, Ok (path_join (QR_DIR w) filename)).

(** [img.save(filepath)]: creates or overwrites the file. *)
Definition save (img : Qrcode.image) (filepath : string) : Handler unit :=
  fun w => ({| QR_DIR := QR_DIR w; db := db w;
               files := <[filepath := img]> (files w);
               entropy := entropy w; drawn := drawn w |}, Ok tt).

(** ** The handlers *)

(** Lines 113-116: the final destination URL. *)
Definition destination_url (payload : WebhookPayload.t) : string :=
  let url := WebhookPayload.base_url payload in
  match WebhookPayload.params payload with
  | [] => url
  | _ :: _ => url +:+ "?" +:+ Urllib.urlencode (WebhookPayload.params payload)
  end.

(** [POST /webhook].  [now] is [datetime.utcnow().isoformat()] at the
    call; [user] is the authenticated caller, which the body ignores. *)
Definition receive_webhook (payload : WebhookPayload.t) (request : Request.t)
    (user : string) (now : string) : Handler Response :=
  let url := destination_url payload in
  slug <- token_urlsafe 8 ;;
  let redirect_url := Request.base_url request +:+ "r/" +:+ slug in
  let img := Qrcode.make redirect_url in
  let filename := slug +:+ ".png" in
  filepath <- qr_path filename ;;
  save img filepath ;;;
  with_connection
    (insert_qr_codes slug url filepath now ;;;
     commit) ;;;
  let link := "/static/" +:+ filename in
  ret (JSONResponse [("qr_code_url", link); ("redirect_url", redirect_url)]).

(** [GET /r/{slug}] *)
Definition follow_qr (slug : string) (request : Request.t) (now : string)
    : Handler Response :=
  final_url <- with_connection
    (row <- select_url slug ;;
     match row with
     | None => raise (HTTPException 404 "Unknown QR code")
     | Some final_url =>
         let ip := match Request.client request with
                   | Some (host, _) => host
                   | None => ""
                   end in
         insert_qr_scans slug ip now ;;;
         commit ;;;
         ret final_url
     end) ;;
  ret (RedirectResponse final_url).

(** ** Sequences of requests *)

Inductive Call :=
| Webhook (payload : WebhookPayload.t) (request : Request.t) (user now : string)
| FollowQr (slug : string) (request : Request.t) (now : string).

Definition call (c : Call) : Handler Response :=
  match c with
  | Webhook payload request user now => receive_webhook payload request user now
  | FollowQr slug request now => follow_qr slug request now
  end.

(** The world after serving the calls one after the other. *)
Fixpoint run (cs : list Call) (w : World) : World :=
  match cs with
  | [] => w
  | c :: cs' => run cs' (fst (call c w))
  end.

(** ** Vocabulary of the statements *)

(** The slug the next issuance will draw. *)
Definition next_slug (w : World) : string := entropy w (drawn w).

(** The path of the image file of a slug. *)
Definition image_path (w : World) (slug : string) : string :=
  path_join (QR_DIR w) (slug +:+ ".png").

Fixpoint string_forallb (p : ascii → bool) (s : string) : bool :=
  match s with
  | EmptyString => true
  | String c rest => p c && string_forallb p rest
  end.

Fixpoint count_char (c : ascii) (s : string) : nat :=
  match s with
  | EmptyString => 0%nat
  | String c' rest => ((if Ascii.eqb c c' then 1 else 0) + count_char c rest)%nat
  end.

(** The bytes [quote_plus] can produce. *)
Definition quoted_char (c : ascii) : bool :=
  Urllib.always_safe c || Ascii.eqb c "%" || Ascii.eqb c "+".

(** The bytes [urlencode] can produce. *)
Definition query_char (c : ascii) : bool :=
  quoted_char c || Ascii.eqb c "=" || Ascii.eqb c "&".





(** The rows of [qr_scans] are in the order of their ids. *)
Definition id_before (a b : QrScans.row) : Prop := QrScans.id a < QrScans.id b.

Definition in_id_order (rows : list QrScans.row) : Prop :=
  StronglySorted id_before rows.

(** ** Values the handlers compute *)

Definition webhook_image (request : Request.t) (w : World) : Qrcode.image :=
  Qrcode.make (Request.base_url request +:+ "r/" +:+ next_slug w).

Definition webhook_row (payload : WebhookPayload.t) (now : string) (w : World)
    : QrCodes.row :=
  {| QrCodes.url := destination_url payload;
     QrCodes.file_path := image_path w (next_slug w);
     QrCodes.created_at := now |}.

Definition client_host (request : Request.t) : string :=
  match Request.client request with
  | Some (host, _) => host
  | None => ""
  end.

Definition scan_row (slug : string) (request : Request.t) (now : string)
    (d : Database) : QrScans.row :=
  {| QrScans.id := next_rowid d; QrScans.slug := slug;
     QrScans.ip := client_host request; QrScans.scanned_at := now |}.

(** ** Sample data *)

Module Sample.
(** Two values of [token_urlsafe(8)] (the bytes [abcdefgh] and
    [12345678]); the entropy source repeats the first one once. *)
Definition slug_a : string := "YWJjZGVmZ2g".
Definition slug_b : string := "MTIzNDU2Nzg".
Definition tokens (n : nat) : string :=
  match n with
  | 0%nat | 1%nat => slug_a
  | _ => slug_b
  end.

Definition payload : WebhookPayload.t :=
  {| WebhookPayload.params := [("a", "1"); ("b", "2")];
     WebhookPayload.base_url := "https://example.com" |}.
Definition payload_query : WebhookPayload.t :=
  {| WebhookPayload.params := [("q", "a b?")];
     WebhookPayload.base_url := "https://example.com/find?lang=en" |}.
Definition request_a : Request.t :=
  {| Request.base_url := "http://a.example/";
     Request.client := Some ("203.0.113.7", 40000) |}.
Definition request_b : Request.t :=
  {| Request.base_url := "http://b.example/"; Request.client := None |}.
Definition user : string := "user@example.com".

(** A new installation. *)
Definition world0 : World :=
  {| QR_DIR := "qr_codes"; db := init_db; files := ∅;
     entropy := tokens; drawn := 0 |}.

(** After one issuance: the next token drawn collides with it. *)
Definition world1 : World :=
  fst (receive_webhook payload request_a user "2024-05-01T10:00:00" world0).

(** The row that issuance stored. *)
Definition row_a : QrCodes.row :=
  {| QrCodes.url := "https://example.com?a=1&b=2";
     QrCodes.file_path := "qr_codes/YWJjZGVmZ2g.png";
     QrCodes.created_at := "2024-05-01T10:00:00" |}.
End Sample.

(** ** Authentication: [login] and [get_current_user] *)

Module OAuth2PasswordRequestForm.
(** The two fields of the form that [login] reads. *)
Record t := { username : string; password : string }.
End OAuth2PasswordRequestForm.

Module User.
(** An entry of [fake_users_db]. *)
Record t := { username : string; full_name : string; hashed_password : string }.
End User.

Definition fake_users_db : gmap string User.t :=
  {[ "user@example.com" :=
       {| User.username := "user@example.com";
          User.full_name := "Example User";
          User.hashed_password := "secret" |} ]}.

(** The application: the world of the handlers and the dictionary
    [fake_tokens_db], from token to username. *)
Record App := { world : World; fake_tokens_db : gmap string string }.

(** What a route gives back: a value, or an exception together with the
    response headers it carries (none unless the code passes some). *)
Inductive Outcome (A : Type) :=
| Returns (a : A)
| Raises (e : Exception) (headers : list (string * string)).
Arguments Returns {A} a.
Arguments Raises {A} e headers.

Definition Endpoint (A : Type) : Type := App → App * Outcome A.

Definition returns {A} (a : A) : Endpoint A := fun s => (s, Returns a).
Definition raises {A} (e : Exception) (headers : list (string * string))
    : Endpoint A :=
  fun s => (s, Raises e headers).
Definition and_then {A B} (c : Endpoint A) (k : A → Endpoint B) : Endpoint B :=
  fun s => match c s with
           | (s', Returns a) => k a s'
           | (s', Raises e headers) => (s', Raises e headers)
           end.

Notation "x <~ c ;; k" := (and_then c (fun x => k))
  (at level 100, c at next level, right associativity).

(** A computation on the world, run inside the application. *)
Definition in_world {A} (h : Handler A) : Endpoint A :=
  fun s =>
    match h (world s) with
    | (w, Ok a) => ({| world := w; fake_tokens_db := fake_tokens_db s |}, Returns a)
    | (w, Raise e) => ({| world := w; fake_tokens_db := fake_tokens_db s |}, Raises e [])
    end.

(** [fake_tokens_db.get(token)] *)
Definition tokens_get (token : string) : Endpoint (option string) :=
  fun s => (s, Returns (fake_tokens_db s !! token)).

(** [fake_tokens_db[token] = username] *)
Definition tokens_set (token username : string) : Endpoint unit :=
  fun s => ({| world := world s;
               fake_tokens_db := <[token := username]> (fake_tokens_db s) |},
            Returns tt).

(** [POST /token].  The entropy source answers the calls of
    [secrets.token_urlsafe] in the order they are made. *)
Definition login (form_data : OAuth2PasswordRequestForm.t)
    : Endpoint (list (string * string)) :=
  let user_dict := fake_users_db !! OAuth2PasswordRequestForm.username form_data in
  let refused :=
    match user_dict with
    | None => true
    | Some u => negb (String.eqb (OAuth2PasswordRequestForm.password form_data)
                                 (User.hashed_password u))
    end in
  if refused then
    raises (HTTPException 401 "Incorrect username or password")
           [("WWW-Authenticate", "Bearer")]
  else
    token <~ in_world (token_urlsafe 16) ;;
    _ <~ tokens_set token (OAuth2PasswordRequestForm.username form_data) ;;
    returns [("access_token", token); ("token_type", "bearer")].

(** [get_current_user(token)]; [not username] holds for a missing token
    and for an empty username. *)
Definition get_current_user (token : string) : Endpoint string :=
  username <~ tokens_get token ;;
  match username with
  | None | Some "" =>
      raises (HTTPException 401 "Invalid authentication credentials")
             [("WWW-Authenticate", "Bearer")]
  | Some u => returns u
  end.

(** ** The routes as the framework serves them *)






(** ** Vocabulary of the further statements *)


(** Every row of [qr_scans] is about a slug that has a row in
    [qr_codes]. *)
Definition scans_have_records (d : Database) : Prop :=
  ∀ e, e ∈ qr_scans d → is_Some (qr_codes d !! QrScans.slug e).

(** The number of rows of [qr_scans] about a slug. *)
Fixpoint scans_of (slug : string) (rows : list QrScans.row) : nat :=
  match rows with
  | [] => 0%nat
  | e :: rows' =>
      ((if String.eqb (QrScans.slug e) slug then 1 else 0) + scans_of slug rows')%nat
  end.

(** The number of resolutions of a slug among some calls. *)
Fixpoint follows_of (slug : string) (cs : list Call) : nat :=
  match cs with
  | [] => 0%nat
  | FollowQr slug' _ _ :: cs' =>
      ((if String.eqb slug' slug then 1 else 0) + follows_of slug cs')%nat
  | Webhook _ _ _ _ :: cs' => follows_of slug cs'
  end.

Module SampleApp.
(** A token of [token_urlsafe(16)] (the bytes [abcdefghijklmnop]), then
    slugs. *)
Definition access_token : string := "YWJjZGVmZ2hpamtsbW5vcA".
Definition tokens (n : nat) : string :=
  match n with
  | 0%nat => access_token
  | 1%nat => Sample.slug_a
  | _ => Sample.slug_b
  end.
Definition form : OAuth2PasswordRequestForm.t :=
  {| OAuth2PasswordRequestForm.username := "user@example.com";
     OAuth2PasswordRequestForm.password := "secret" |}.
(** A new installation, nobody logged in. *)
Definition app0 : App :=
  {| world := {| QR_DIR := "qr_codes"; db := init_db; files := ∅;
                 entropy := tokens; drawn := 0 |};
     fake_tokens_db := ∅ |}.

End SampleApp.

(** ** Properties of [quote_plus] and [urlencode] *)

Section UrllibFacts.
Import Urllib.

Lemma string_forallb_app p s1 s2 :
  string_forallb p (s1 +:+ s2) = string_forallb p s1 && string_forallb p s2.
Proof.
  induction s1 as [|c s1 IH]; simpl; [done|].
  rewrite IH. by rewrite andb_assoc.
Qed.

Lemma string_forallb_impl (p q : ascii → bool) s :
  (∀ c, p c = true → q c = true) →
  string_forallb p s = true → string_forallb q s = true.
Proof.
  intros Hpq. induction s as [|c s IH]; simpl; [done|].
  intros [Hc Hs]%andb_prop. rewrite (Hpq _ Hc). simpl. auto.
Qed.

Lemma count_char_app c s1 s2 :
  count_char c (s1 +:+ s2) = (count_char c s1 + count_char c s2)%nat.
Proof.
  induction s1 as [|c' s1 IH]; simpl; [done|]. rewrite IH. lia.
Qed.

Lemma count_char_absent p c s :
  p c = false → string_forallb p s = true → count_char c s = 0%nat.
Proof.
  intros Hc. induction s as [|c' s IH]; simpl; [done|].
  intros [Hc' Hs]%andb_prop. rewrite (IH Hs).
  destruct (Ascii.eqb_spec c c') as [->|_]; [congruence|done].
Qed.

Lemma quote_byte_quoted c : string_forallb quoted_char (quote_byte c) = true.
Proof. destruct c as [[] [] [] [] [] [] [] []]; reflexivity. Qed.

Lemma quote_plus_quoted s : string_forallb quoted_char (quote_plus s) = true.
Proof.
  induction s as [|c s IH]; simpl; [done|].
  by rewrite string_forallb_app, quote_byte_quoted, IH.
Qed.



Lemma quote_plus_query s : string_forallb query_char (quote_plus s) = true.
Proof.
  apply (string_forallb_impl quoted_char); [|apply quote_plus_quoted].
  intros c Hc. unfold query_char. by rewrite Hc.
Qed.

Lemma urlencode_query_chars query :
  string_forallb query_char (urlencode query) = true.
Proof.
  assert (Hitem : ∀ kv : string * string,
    string_forallb query_char
      (quote_plus (fst kv) +:+ "=" +:+ quote_plus (snd kv)) = true).
  { intros kv. by rewrite !string_forallb_app, !quote_plus_query. }
  unfold urlencode. induction query as [|kv query IH]; [done|].
  cbn [map String.concat]. destruct (map _ query) eqn:Hq.
  - apply Hitem.
  - rewrite string_forallb_app, Hitem.
    rewrite string_forallb_app. exact IH.
Qed.

End UrllibFacts.

(** ** What each handler does to the world *)

Lemma receive_webhook_duplicate payload request user now w r :
  qr_codes (db w) !! next_slug w = Some r →
  receive_webhook payload request user now w =
    ({| QR_DIR := QR_DIR w; db := db w;
        files := <[image_path w (next_slug w) := webhook_image request w]> (files w);
        entropy := entropy w; drawn := S (drawn w) |},
     Raise (IntegrityError "UNIQUE constraint failed: qr_codes.slug")).
Proof.
  intros Hr.
  unfold receive_webhook, bind, token_urlsafe, qr_path, save, with_connection,
    insert_qr_codes, next_slug in *.
  cbn. by rewrite Hr.
Qed.

Lemma receive_webhook_fresh payload request user now w :
  qr_codes (db w) !! next_slug w = None →
  receive_webhook payload request user now w =
    ({| QR_DIR := QR_DIR w;
        db := {| qr_codes := <[next_slug w := webhook_row payload now w]> (qr_codes (db w));
                 qr_scans := qr_scans (db w);
                 qr_scans_seq := qr_scans_seq (db w) |};
        files := <[image_path w (next_slug w) := webhook_image request w]> (files w);
        entropy := entropy w; drawn := S (drawn w) |},
     Ok (JSONResponse
           [("qr_code_url", "/static/" +:+ next_slug w +:+ ".png");
            ("redirect_url", Request.base_url request +:+ "r/" +:+ next_slug w)])).
Proof.
  intros Hr.
  unfold receive_webhook, bind, token_urlsafe, qr_path, save, with_connection,
    insert_qr_codes, commit, ret, next_slug in *.
  cbn. by rewrite Hr.
Qed.

Lemma follow_qr_unknown slug request now w :
  qr_codes (db w) !! slug = None →
  follow_qr slug request now w = (w, Raise (HTTPException 404 "Unknown QR code")).
Proof.
  intros Hr.
  unfold follow_qr, bind, with_connection, select_url, raise.
  cbn. rewrite Hr. cbn. by destruct w.
Qed.

Lemma follow_qr_known slug request now w r :
  qr_codes (db w) !! slug = Some r →
  follow_qr slug request now w =
    ({| QR_DIR := QR_DIR w;
        db := {| qr_codes := qr_codes (db w);
                 qr_scans := qr_scans (db w) ++ [scan_row slug request now (db w)];
                 qr_scans_seq := next_rowid (db w) |};
        files := files w; entropy := entropy w; drawn := drawn w |},
     Ok (RedirectResponse (QrCodes.url r))).
Proof.
  intros Hr.
  unfold follow_qr, bind, with_connection, select_url, insert_qr_scans, commit, ret.
  cbn. rewrite Hr. cbn. unfold scan_row, client_host.
  by destruct (Request.client request) as [[host port]|].
Qed.

(** A call never touches the configuration or the entropy source. *)
Lemma call_codes c w slug r :
  qr_codes (db w) !! slug = Some r →
  qr_codes (db (fst (call c w))) !! slug = Some r.
Proof.
  intros Hr. destruct c as [payload request user now|slug' request now]; cbn [call].
  - destruct (qr_codes (db w) !! next_slug w) as [r'|] eqn:Hs.
    + by rewrite (receive_webhook_duplicate _ _ _ _ _ _ Hs).
    + rewrite (receive_webhook_fresh _ _ _ _ _ Hs). cbn.
      rewrite lookup_insert_ne; [done|]. intros <-. congruence.
  - destruct (qr_codes (db w) !! slug') as [r'|] eqn:Hs.
    + by rewrite (follow_qr_known _ _ _ _ _ Hs).
    + by rewrite (follow_qr_unknown _ _ _ _ Hs).
Qed.

Lemma run_codes cs w slug r :
  qr_codes (db w) !! slug = Some r →
  qr_codes (db (run cs w)) !! slug = Some r.
Proof.
  revert w. induction cs as [|c cs IH]; intros w Hr; [done|].
  cbn [run]. by apply IH, call_codes.
Qed.

Lemma call_scans c w :
  qr_scans (db w) `prefix_of` qr_scans (db (fst (call c w))).
Proof.
  destruct c as [payload request user now|slug request now]; cbn [call].
  - destruct (qr_codes (db w) !! next_slug w) as [r'|] eqn:Hs.
    + by rewrite (receive_webhook_duplicate _ _ _ _ _ _ Hs).
    + by rewrite (receive_webhook_fresh _ _ _ _ _ Hs).
  - destruct (qr_codes (db w) !! slug) as [r'|] eqn:Hs.
    + rewrite (follow_qr_known _ _ _ _ _ Hs). cbn. by apply prefix_app_r.
    + by rewrite (follow_qr_unknown _ _ _ _ Hs).
Qed.

Lemma run_scans cs w :
  qr_scans (db w) `prefix_of` qr_scans (db (run cs w)).
Proof.
  revert w. induction cs as [|c cs IH]; intros w; [done|].
  cbn [run]. etrans; [apply call_scans|apply IH].
Qed.

Lemma max_rowid_bound rows e : e ∈ rows → QrScans.id e ≤ max_rowid rows.
Proof.
  unfold max_rowid. induction rows as [|e' rows IH]; [by intros ?%elem_of_nil|].
  intros [->|Hin]%elem_of_cons; cbn; [lia|]. specialize (IH Hin). lia.
Qed.

Lemma next_rowid_above d e : e ∈ qr_scans d → QrScans.id e < next_rowid d.
Proof. intros Hin%max_rowid_bound. unfold next_rowid. lia. Qed.

Lemma string_app_assoc (s1 s2 s3 : string) : (s1 +:+ s2) +:+ s3 = s1 +:+ s2 +:+ s3.
Proof.
  induction s1 as [|c s1 IH]; [reflexivity|].
  change (String c ((s1 +:+ s2) +:+ s3) = String c (s1 +:+ s2 +:+ s3)).
  by rewrite IH.
Qed.

Lemma call_id_order c w :
  in_id_order (qr_scans (db w)) → in_id_order (qr_scans (db (fst (call c w)))).
Proof.
  intros Hord. destruct c as [payload request user now|slug request now]; cbn [call].
  - destruct (qr_codes (db w) !! next_slug w) as [r'|] eqn:Hs.
    + by rewrite (receive_webhook_duplicate _ _ _ _ _ _ Hs).
    + by rewrite (receive_webhook_fresh _ _ _ _ _ Hs).
  - destruct (qr_codes (db w) !! slug) as [r'|] eqn:Hs.
    + rewrite (follow_qr_known _ _ _ _ _ Hs). cbn.
      apply StronglySorted_app_2; [|exact Hord|repeat constructor].
      intros e1 e2 He1 ->%list_elem_of_singleton.
      by apply next_rowid_above.
    + by rewrite (follow_qr_unknown _ _ _ _ Hs).
Qed.

Lemma run_id_order cs w :
  in_id_order (qr_scans (db w)) → in_id_order (qr_scans (db (run cs w))).
Proof.
  revert w. induction cs as [|c cs IH]; intros w Hord; [done|].
  cbn [run]. by apply IH, call_id_order.
Qed.



(** The image file of the drawn slug after [receive_webhook], whatever
    the outcome of the insert. *)
Lemma receive_webhook_image payload request user now w :
  files (fst (receive_webhook payload request user now w)) !! image_path w (next_slug w) =
    Some (webhook_image request w).
Proof.
  destruct (qr_codes (db w) !! next_slug w) as [r|] eqn:Hs.
  - rewrite (receive_webhook_duplicate _ _ _ _ _ _ Hs). apply lookup_insert_eq.
  - rewrite (receive_webhook_fresh _ _ _ _ _ Hs). apply lookup_insert_eq.
Qed.


Example urlencode_ab :
  Urllib.urlencode [("a", "1"); ("b", "2")] = "a=1&b=2".
Proof. reflexivity. Qed.

Example urlencode_reserved :
  Urllib.urlencode [("q", "a b&c=d?"); ("k/", "~x")] = "q=a+b%26c%3Dd%3F&k%2F=~x".
Proof. reflexivity. Qed.

(** ** The claims *)

(** C1.  When issuance succeeds, the row stored under the minted slug
    carries the destination URL that issuance built, and resolving that
    slug, from any client and at any time, redirects to exactly that
    string. *)
Theorem resolve_issued_slug payload request user now w w' resp :
  receive_webhook payload request user now w = (w', Ok resp) →
  resp = JSONResponse
           [("qr_code_url", "/static/" +:+ next_slug w +:+ ".png");
            ("redirect_url", Request.base_url request +:+ "r/" +:+ next_slug w)] ∧
  QrCodes.url <$> qr_codes (db w') !! next_slug w = Some (destination_url payload) ∧
  ∀ request' now', ∃ w'',
    follow_qr (next_slug w) request' now' w' =
      (w'', Ok (RedirectResponse (destination_url payload))).
Proof.
  intros Hissue.
  destruct (qr_codes (db w) !! next_slug w) as [r|] eqn:Hs.
  - rewrite (receive_webhook_duplicate _ _ _ _ _ _ Hs) in Hissue. discriminate.
  - rewrite (receive_webhook_fresh _ _ _ _ _ Hs) in Hissue.
    injection Hissue as <- <-.
    assert (Hrow : qr_codes
              (db {| QR_DIR := QR_DIR w;
                     db := {| qr_codes := <[next_slug w := webhook_row payload now w]>
                                            (qr_codes (db w));
                              qr_scans := qr_scans (db w);
                              qr_scans_seq := qr_scans_seq (db w) |};
                     files := <[image_path w (next_slug w) := webhook_image request w]>
                                (files w);
                     entropy := entropy w; drawn := S (drawn w) |})
              !! next_slug w = Some (webhook_row payload now w))
      by apply lookup_insert_eq.
    split; [done|]. split; [by rewrite Hrow|].
    intros request' now'. eexists.
    by rewrite (follow_qr_known _ _ _ _ _ Hrow).
Qed.

Lemma resolve_issued_slug_witness :
  ∃ w'', follow_qr Sample.slug_a Sample.request_b "2024-05-02T08:30:00" Sample.world1 =
           (w'', Ok (RedirectResponse "https://example.com?a=1&b=2")).
Proof.
  refine (proj2 (proj2 (resolve_issued_slug Sample.payload Sample.request_a
            Sample.user "2024-05-01T10:00:00" Sample.world0 Sample.world1
            (JSONResponse [("qr_code_url", "/static/YWJjZGVmZ2g.png");
                           ("redirect_url", "http://a.example/r/YWJjZGVmZ2g")]) _))
            Sample.request_b "2024-05-02T08:30:00").
  reflexivity.
Defined.

(** C2 (as the code has it).  Issuance draws exactly one slug.  When that
    slug already has a row, the insert's uniqueness violation reaches the
    caller as [sqlite3.IntegrityError]; no second slug is drawn and the
    database is left as it was. *)
Theorem issuance_does_not_retry payload request user now w :
  is_Some (qr_codes (db w) !! next_slug w) →
  ∃ w', receive_webhook payload request user now w =
          (w', Raise (IntegrityError "UNIQUE constraint failed: qr_codes.slug")) ∧
        db w' = db w ∧
        drawn w' = S (drawn w).
Proof.
  intros [r Hs]. eexists.
  rewrite (receive_webhook_duplicate _ _ _ _ _ _ Hs). done.
Qed.

Lemma issuance_does_not_retry_witness :
  ∃ w', receive_webhook Sample.payload Sample.request_a Sample.user
          "2024-05-01T10:05:00" Sample.world1 =
          (w', Raise (IntegrityError "UNIQUE constraint failed: qr_codes.slug")) ∧
        db w' = db Sample.world1 ∧
        drawn w' = 2%nat.
Proof.
  apply (issuance_does_not_retry Sample.payload Sample.request_a Sample.user
           "2024-05-01T10:05:00" Sample.world1).
  vm_compute. eexists. reflexivity.
Defined.

(** C2 (as stated) fails: the store holds one link, the entropy source
    repeats its slug and would yield an unused slug on the next draw, yet
    the duplicate is reported to the caller after a single draw. *)
Lemma duplicate_slug_is_surfaced :
  let out := receive_webhook Sample.payload Sample.request_a Sample.user
               "2024-05-01T10:05:00" Sample.world1 in
  qr_codes (db Sample.world1) !! entropy Sample.world1 (S (drawn Sample.world1)) = None ∧
  snd out = Raise (IntegrityError "UNIQUE constraint failed: qr_codes.slug") ∧
  drawn (fst out) = S (drawn Sample.world1).
Proof. vm_compute. done. Qed.

(** C3.  Resolving a slug that has no row raises the 404 "Unknown QR
    code" and leaves the whole world as it was: no row is added to
    [qr_codes] and none to [qr_scans]. *)
Theorem resolve_unknown_slug slug request now w :
  qr_codes (db w) !! slug = None →
  ∃ w', follow_qr slug request now w =
          (w', Raise (HTTPException 404 "Unknown QR code")) ∧
        w' = w ∧
        qr_codes (db w') = qr_codes (db w) ∧
        qr_scans (db w') = qr_scans (db w).
Proof.
  intros Hs. exists w. by rewrite (follow_qr_unknown _ _ _ _ Hs).
Qed.

Lemma resolve_unknown_slug_witness :
  ∃ w', follow_qr Sample.slug_b Sample.request_a "2024-05-02T08:30:00" Sample.world1 =
          (w', Raise (HTTPException 404 "Unknown QR code")) ∧
        w' = Sample.world1 ∧
        qr_codes (db w') = qr_codes (db Sample.world1) ∧
        qr_scans (db w') = qr_scans (db Sample.world1).
Proof.
  apply (resolve_unknown_slug Sample.slug_b Sample.request_a
           "2024-05-02T08:30:00" Sample.world1).
  vm_compute. reflexivity.
Defined.



(** C5.  Each resolution of a slug that has a row appends exactly one
    row to [qr_scans], for that slug and with the client's address; its
    id is larger than every id already in the table.  Two resolutions in
    a row leave two distinct rows, in order, the second with the larger
    id; whatever calls follow, the rows present stay where they are,
    unchanged, and the table stays in the order of its ids. *)
Theorem scan_events_append_only slug r request1 now1 request2 now2 w :
  qr_codes (db w) !! slug = Some r →
  ∃ w1 w2 e1 e2,
    follow_qr slug request1 now1 w = (w1, Ok (RedirectResponse (QrCodes.url r))) ∧
    follow_qr slug request2 now2 w1 = (w2, Ok (RedirectResponse (QrCodes.url r))) ∧
    qr_scans (db w1) = qr_scans (db w) ++ [e1] ∧
    qr_scans (db w2) = qr_scans (db w) ++ [e1; e2] ∧
    QrScans.slug e1 = slug ∧ QrScans.slug e2 = slug ∧
    QrScans.ip e1 = client_host request1 ∧ QrScans.ip e2 = client_host request2 ∧
    QrScans.scanned_at e1 = now1 ∧ QrScans.scanned_at e2 = now2 ∧
    (∀ e, e ∈ qr_scans (db w) → QrScans.id e < QrScans.id e1) ∧
    QrScans.id e1 < QrScans.id e2 ∧
    (∀ cs, qr_scans (db w2) `prefix_of` qr_scans (db (run cs w2))) ∧
    (in_id_order (qr_scans (db w)) → ∀ cs, in_id_order (qr_scans (db (run cs w2)))).
Proof.
  intros Hs.
  pose proof (follow_qr_known slug request1 now1 w r Hs) as H1.
  set (w1 := {| QR_DIR := QR_DIR w;
                db := {| qr_codes := qr_codes (db w);
                         qr_scans := qr_scans (db w) ++ [scan_row slug request1 now1 (db w)];
                         qr_scans_seq := next_rowid (db w) |};
                files := files w; entropy := entropy w; drawn := drawn w |}) in *.
  assert (Hs1 : qr_codes (db w1) !! slug = Some r) by exact Hs.
  pose proof (follow_qr_known slug request2 now2 w1 r Hs1) as H2.
  eexists w1, _, (scan_row slug request1 now1 (db w)), (scan_row slug request2 now2 (db w1)).
  split; [exact H1|]. split; [exact H2|].
  repeat split; try reflexivity.
  - cbn. by rewrite <- app_assoc.
  - intros e He. by apply next_rowid_above.
  - apply (next_rowid_above (db w1)). cbn. apply elem_of_app. right. by left.
  - intros cs. apply run_scans.
  - intros Hord cs.
    apply (run_id_order (FollowQr slug request1 now1 :: FollowQr slug request2 now2 :: cs)) in Hord.
    cbn [run call] in Hord. rewrite H1 in Hord. cbn [fst] in Hord.
    by rewrite H2 in Hord.
Qed.

Lemma scan_events_append_only_witness :
  qr_codes (db Sample.world1) !! Sample.slug_a = Some Sample.row_a ∧
  ∃ w1 w2 e1 e2,
    follow_qr Sample.slug_a Sample.request_a "2024-05-02T08:30:00" Sample.world1 =
      (w1, Ok (RedirectResponse (QrCodes.url Sample.row_a))) ∧
    follow_qr Sample.slug_a Sample.request_b "2024-05-02T08:31:00" w1 =
      (w2, Ok (RedirectResponse (QrCodes.url Sample.row_a))) ∧
    qr_scans (db w1) = qr_scans (db Sample.world1) ++ [e1] ∧
    qr_scans (db w2) = qr_scans (db Sample.world1) ++ [e1; e2] ∧
    QrScans.slug e1 = Sample.slug_a ∧ QrScans.slug e2 = Sample.slug_a ∧
    QrScans.ip e1 = client_host Sample.request_a ∧
    QrScans.ip e2 = client_host Sample.request_b ∧
    QrScans.scanned_at e1 = "2024-05-02T08:30:00" ∧
    QrScans.scanned_at e2 = "2024-05-02T08:31:00" ∧
    (∀ e, e ∈ qr_scans (db Sample.world1) → QrScans.id e < QrScans.id e1) ∧
    QrScans.id e1 < QrScans.id e2 ∧
    (∀ cs, qr_scans (db w2) `prefix_of` qr_scans (db (run cs w2))) ∧
    (in_id_order (qr_scans (db Sample.world1)) →
     ∀ cs, in_id_order (qr_scans (db (run cs w2)))).
Proof.
  split; [vm_compute; reflexivity|].
  apply (scan_events_append_only Sample.slug_a Sample.row_a
           Sample.request_a "2024-05-02T08:30:00"
           Sample.request_b "2024-05-02T08:31:00" Sample.world1).
  vm_compute. reflexivity.
Defined.

(** C6.  A row of [qr_codes] is never changed or removed: after any
    sequence of issuances and resolutions, the slug still maps to the
    same row, and resolving it still redirects to the same URL. *)
Theorem link_record_immutable cs slug r w :
  qr_codes (db w) !! slug = Some r →
  qr_codes (db (run cs w)) !! slug = Some r ∧
  ∀ request now,
    snd (follow_qr slug request now (run cs w)) = Ok (RedirectResponse (QrCodes.url r)).
Proof.
  intros Hs. pose proof (run_codes cs w slug r Hs) as Hrun.
  split; [exact Hrun|]. intros request now.
  by rewrite (follow_qr_known _ _ _ _ _ Hrun).
Qed.

Lemma link_record_immutable_witness :
  let cs := [Webhook Sample.payload_query Sample.request_b Sample.user "2024-05-01T10:05:00";
             FollowQr Sample.slug_a Sample.request_a "2024-05-02T08:30:00";
             Webhook Sample.payload_query Sample.request_b Sample.user "2024-05-03T09:00:00";
             FollowQr Sample.slug_b Sample.request_b "2024-05-03T09:01:00"] in
  QrCodes.url <$> qr_codes (db (run cs Sample.world1)) !! Sample.slug_a =
    Some "https://example.com?a=1&b=2".
Proof.
  intros cs.
  rewrite (proj1 (link_record_immutable cs Sample.slug_a Sample.row_a
             Sample.world1 ltac:(vm_compute; reflexivity))).
  reflexivity.
Defined.





(** C9.  With [request.base_url] being the resolver's base URL followed
    by its closing slash, the image saved for the minted slug encodes
    the resolver's base URL, [/r/] and the slug.  The same text is
    returned as [redirect_url], and it does not depend on the payload:
    the destination is not what the image encodes. *)
Theorem qr_image_encodes_redirect_url resolver payload request user now w :
  Request.base_url request = resolver +:+ "/" →
  ∃ img,
    files (fst (receive_webhook payload request user now w))
      !! image_path w (next_slug w) = Some img ∧
    Qrcode.scan img = resolver +:+ "/r/" +:+ next_slug w ∧
    (∀ resp, snd (receive_webhook payload request user now w) = Ok resp →
       resp = JSONResponse
                [("qr_code_url", "/static/" +:+ next_slug w +:+ ".png");
                 ("redirect_url", Qrcode.scan img)]) ∧
    (∀ payload' user' now',
       files (fst (receive_webhook payload' request user' now' w))
         !! image_path w (next_slug w) = Some img).
Proof.
  intros Hbase. exists (webhook_image request w).
  split; [apply receive_webhook_image|].
  split; [|split].
  - unfold webhook_image, Qrcode.scan. rewrite Hbase, string_app_assoc. reflexivity.
  - intros resp Hresp.
    destruct (qr_codes (db w) !! next_slug w) as [r|] eqn:Hs.
    + rewrite (receive_webhook_duplicate _ _ _ _ _ _ Hs) in Hresp. discriminate.
    + rewrite (receive_webhook_fresh _ _ _ _ _ Hs) in Hresp. cbn in Hresp.
      by injection Hresp as <-.
  - intros payload' user' now'. apply receive_webhook_image.
Qed.

Lemma qr_image_encodes_redirect_url_witness :
  ∃ img,
    files (fst (receive_webhook Sample.payload Sample.request_a Sample.user
                  "2024-05-01T10:00:00" Sample.world0))
      !! "qr_codes/YWJjZGVmZ2g.png" = Some img ∧
    Qrcode.scan img = "http://a.example/r/YWJjZGVmZ2g".
Proof.
  destruct (qr_image_encodes_redirect_url "http://a.example" Sample.payload
              Sample.request_a Sample.user "2024-05-01T10:00:00" Sample.world0
              eq_refl) as (img & Hfile & Hscan & _).
  exists img. split; [exact Hfile|exact Hscan].
Defined.

(** C10.  With at least one parameter, the destination URL is the
    template followed by [?] and the encoded parameters, whatever the
    template contains; the encoded parameters hold no [?], so the URL
    has exactly one [?] more than the template, and at least two when
    the template already has one. *)
Theorem query_appended_unconditionally payload :
  WebhookPayload.params payload ≠ [] →
  let base := WebhookPayload.base_url payload in
  destination_url payload =
    base +:+ "?" +:+ Urllib.urlencode (WebhookPayload.params payload) ∧
  count_char "?" (destination_url payload) = S (count_char "?" base) ∧
  ((1 ≤ count_char "?" base)%nat → (2 ≤ count_char "?" (destination_url payload))%nat).
Proof.
  intros Hparams base.
  assert (Hurl : destination_url payload =
                 base +:+ "?" +:+ Urllib.urlencode (WebhookPayload.params payload)).
  { unfold destination_url. by destruct (WebhookPayload.params payload). }
  assert (Hcount : count_char "?" (destination_url payload) = S (count_char "?" base)).
  { rewrite Hurl, !count_char_app.
    rewrite (count_char_absent query_char "?" _ eq_refl (urlencode_query_chars _)).
    change (count_char "?" "?") with 1%nat. lia. }
  split; [exact Hurl|]. split; [exact Hcount|]. lia.
Qed.

Lemma query_appended_unconditionally_witness :
  destination_url Sample.payload_query = "https://example.com/find?lang=en?q=a+b%3F" ∧
  count_char "?" (destination_url Sample.payload_query) = 2%nat.
Proof.
  destruct (query_appended_unconditionally Sample.payload_query) as (Hurl & Hcount & _).
  - discriminate.
  - split; [exact Hurl|exact Hcount].
Defined.


(** ** Further properties: issuance and the scan log *)

(** X7.  A slug is issued at most once.  After a successful issuance,
    and whatever calls have been served since, an issuance that draws
    the same slug again fails with the uniqueness violation, and the
    slug still leads to the destination of the first issuance. *)
Theorem slug_issued_at_most_once payload request user now w w' resp
    cs payload2 request2 user2 now2 :
  receive_webhook payload request user now w = (w', Ok resp) →
  next_slug (run cs w') = next_slug w →
  let out := receive_webhook payload2 request2 user2 now2 (run cs w') in
  snd out = Raise (IntegrityError "UNIQUE constraint failed: qr_codes.slug") ∧
  QrCodes.url <$> qr_codes (db (fst out)) !! next_slug w = Some (destination_url payload).
Proof.
  intros Hissue Hsame. cbn zeta.
  destruct (qr_codes (db w) !! next_slug w) as [r|] eqn:Hs.
  { rewrite (receive_webhook_duplicate _ _ _ _ _ _ Hs) in Hissue. discriminate. }
  rewrite (receive_webhook_fresh _ _ _ _ _ Hs) in Hissue.
  injection Hissue as <- <-.
  set (w' := {| QR_DIR := QR_DIR w;
                db := {| qr_codes := <[next_slug w := webhook_row payload now w]>
                                       (qr_codes (db w));
                         qr_scans := qr_scans (db w);
                         qr_scans_seq := qr_scans_seq (db w) |};
                files := <[image_path w (next_slug w) := webhook_image request w]>
                           (files w);
                entropy := entropy w; drawn := S (drawn w) |}) in *.
  assert (Hrow : qr_codes (db w') !! next_slug w = Some (webhook_row payload now w))
    by apply lookup_insert_eq.
  apply (run_codes cs) in Hrow.
  assert (Hdup : qr_codes (db (run cs w')) !! next_slug (run cs w') =
                 Some (webhook_row payload now w)) by (by rewrite Hsame).
  rewrite (receive_webhook_duplicate _ _ _ _ _ _ Hdup). cbn [fst snd db].
  split; [done|]. by rewrite Hrow.
Qed.

Lemma slug_issued_at_most_once_witness :
  let out := receive_webhook Sample.payload_query Sample.request_b Sample.user
               "2024-05-02T09:00:00"
               (run [FollowQr Sample.slug_a Sample.request_b "2024-05-02T08:30:00"]
                    Sample.world1) in
  snd out = Raise (IntegrityError "UNIQUE constraint failed: qr_codes.slug") ∧
  QrCodes.url <$> qr_codes (db (fst out)) !! Sample.slug_a =
    Some "https://example.com?a=1&b=2".
Proof.
  apply (slug_issued_at_most_once Sample.payload Sample.request_a Sample.user
           "2024-05-01T10:00:00" Sample.world0 Sample.world1
           (JSONResponse [("qr_code_url", "/static/YWJjZGVmZ2g.png");
                          ("redirect_url", "http://a.example/r/YWJjZGVmZ2g")])
           [FollowQr Sample.slug_a Sample.request_b "2024-05-02T08:30:00"]
           Sample.payload_query Sample.request_b Sample.user "2024-05-02T09:00:00").
  - reflexivity.
  - reflexivity.
Defined.

Lemma call_scans_have_records c w :
  scans_have_records (db w) → scans_have_records (db (fst (call c w))).
Proof.
  intros Hinv. destruct c as [payload request user now|slug request now]; cbn [call].
  - destruct (qr_codes (db w) !! next_slug w) as [r'|] eqn:Hs.
    + by rewrite (receive_webhook_duplicate _ _ _ _ _ _ Hs).
    + rewrite (receive_webhook_fresh _ _ _ _ _ Hs).
      intros e He. cbn in He |- *. specialize (Hinv e He).
      rewrite lookup_insert. by case_decide.
  - destruct (qr_codes (db w) !! slug) as [r'|] eqn:Hs.
    + rewrite (follow_qr_known _ _ _ _ _ Hs).
      intros e He. cbn in He |- *.
      apply elem_of_app in He as [He| ->%list_elem_of_singleton].
      * by apply Hinv.
      * cbn. by rewrite Hs.
    + by rewrite (follow_qr_unknown _ _ _ _ Hs).
Qed.

(** X8.  The handlers keep the scan log referentially intact although
    the schema does not: if every scan row is about a slug that has a
    link row, this is still so after any sequence of issuances and
    resolutions.  It holds in particular from an empty scan log. *)
Theorem scans_always_have_records cs w :
  scans_have_records (db w) → scans_have_records (db (run cs w)).
Proof.
  revert w. induction cs as [|c cs IH]; intros w Hinv; [done|].
  cbn [run]. by apply IH, call_scans_have_records.
Qed.

Lemma scans_always_have_records_witness :
  scans_have_records
    (db (run [FollowQr Sample.slug_b Sample.request_a "2024-05-02T08:29:00";
              FollowQr Sample.slug_a Sample.request_a "2024-05-02T08:30:00";
              Webhook Sample.payload_query Sample.request_b Sample.user
                "2024-05-03T09:00:00";
              FollowQr Sample.slug_a Sample.request_b "2024-05-03T09:01:00"]
             Sample.world0)).
Proof.
  apply (scans_always_have_records _ Sample.world0).
  intros e He. cbn in He. by apply elem_of_nil in He.
Defined.

Lemma scans_of_app slug rows1 rows2 :
  scans_of slug (rows1 ++ rows2) = (scans_of slug rows1 + scans_of slug rows2)%nat.
Proof. induction rows1 as [|e rows1 IH]; cbn; [done|]. rewrite IH. lia. Qed.

(** X16.  The scan log counts the resolutions of an issued slug: after
    any sequence of calls, the number of scan rows about a slug that has
    a link row has grown by exactly the number of resolutions of that
    slug in the sequence; issuances and resolutions of other slugs add
    nothing to it. *)
Theorem scans_count_resolutions cs slug r w :
  qr_codes (db w) !! slug = Some r →
  scans_of slug (qr_scans (db (run cs w))) =
    (scans_of slug (qr_scans (db w)) + follows_of slug cs)%nat.
Proof.
  revert w. induction cs as [|c cs IH]; intros w Hs; cbn [run follows_of]; [lia|].
  rewrite (IH _ (call_codes c w slug r Hs)).
  destruct c as [payload request user now|slug' request now]; cbn [call].
  - destruct (qr_codes (db w) !! next_slug w) as [r'|] eqn:Hn.
    + by rewrite (receive_webhook_duplicate _ _ _ _ _ _ Hn).
    + by rewrite (receive_webhook_fresh _ _ _ _ _ Hn).
  - destruct (qr_codes (db w) !! slug') as [r'|] eqn:Hs'.
    + rewrite (follow_qr_known _ _ _ _ _ Hs'). cbn [fst db qr_scans].
      rewrite scans_of_app. cbn. lia.
    + rewrite (follow_qr_unknown _ _ _ _ Hs'). cbn [fst].
      destruct (String.eqb_spec slug' slug) as [->|_]; [congruence|lia].
Qed.

Lemma scans_count_resolutions_witness :
  scans_of Sample.slug_a
    (qr_scans (db (run [FollowQr Sample.slug_a Sample.request_a "2024-05-02T08:30:00";
                        FollowQr Sample.slug_b Sample.request_a "2024-05-02T08:31:00";
                        Webhook Sample.payload_query Sample.request_b Sample.user
                          "2024-05-02T08:31:30";
                        FollowQr Sample.slug_a Sample.request_b "2024-05-02T08:32:00"]
                       Sample.world1))) = 2%nat.
Proof.
  rewrite (scans_count_resolutions _ Sample.slug_a Sample.row_a Sample.world1
             ltac:(vm_compute; reflexivity)).
  reflexivity.
Defined.

(** ** Further properties: authentication *)

Lemma registered_user name u :
  fake_users_db !! name = Some u →
  name = "user@example.com" ∧ User.hashed_password u = "secret".
Proof.
  unfold fake_users_db. intros [<- <-]%lookup_singleton_Some. done.
Qed.

Lemma login_accepted form_data s u :
  fake_users_db !! OAuth2PasswordRequestForm.username form_data = Some u →
  OAuth2PasswordRequestForm.password form_data = User.hashed_password u →
  login form_data s =
    ({| world := {| QR_DIR := QR_DIR (world s); db := db (world s);
                    files := files (world s); entropy := entropy (world s);
                    drawn := S (drawn (world s)) |};
        fake_tokens_db := <[next_slug (world s) :=
                              OAuth2PasswordRequestForm.username form_data]>
                            (fake_tokens_db s) |},
     Returns [("access_token", next_slug (world s)); ("token_type", "bearer")]).
Proof.
  intros Hu Hp. unfold login. rewrite Hu, Hp, String.eqb_refl. reflexivity.
Qed.


Lemma get_current_user_known token u s :
  fake_tokens_db s !! token = Some u → u ≠ "" →
  get_current_user token s = (s, Returns u).
Proof.
  intros Ht Hu. unfold get_current_user, and_then, tokens_get. rewrite Ht.
  by destruct u.
Qed.









(** X1.  Logging in with a registered username and its password returns
    a bearer token, the next one of the entropy source, and from then on
    [get_current_user] maps that token to the username. *)
Theorem login_then_authenticated form_data u s :
  fake_users_db !! OAuth2PasswordRequestForm.username form_data = Some u →
  OAuth2PasswordRequestForm.password form_data = User.hashed_password u →
  ∃ s',
    login form_data s =
      (s', Returns [("access_token", next_slug (world s)); ("token_type", "bearer")]) ∧
    get_current_user (next_slug (world s)) s' =
      (s', Returns (OAuth2PasswordRequestForm.username form_data)).
Proof.
  intros Hu Hp. eexists. split; [by apply (login_accepted _ _ u)|].
  apply get_current_user_known; [apply lookup_insert_eq|].
  destruct (registered_user _ _ Hu) as [-> _]. done.
Qed.

Lemma login_then_authenticated_witness :
  ∃ s',
    login SampleApp.form SampleApp.app0 =
      (s', Returns [("access_token", "YWJjZGVmZ2hpamtsbW5vcA"); ("token_type", "bearer")]) ∧
    get_current_user "YWJjZGVmZ2hpamtsbW5vcA" s' = (s', Returns "user@example.com").
Proof.
  apply (login_then_authenticated SampleApp.form
           {| User.username := "user@example.com"; User.full_name := "Example User";
              User.hashed_password := "secret" |} SampleApp.app0);
    reflexivity.
Defined.





